(** * Land-cover dashboards: remapping, zonal areas and trends

    A shallow embedding of the computational parts of the three dashboards
    [mapbiomas_globe.py], [novo.py] and [rio.py].

    Numbers.  Python floats are modelled by exact rationals [Q], extended in
    module [Rio] with the three non-finite values a numpy division can
    produce.  Rounding to binary64 is not modelled.

    Earth Engine.  The imagery service is an external collaborator; module
    [EE] gives the documented meaning of the handful of image operations the
    dashboards call, over a finite list of pixels. *)

From Stdlib Require Import ZArith QArith Qabs Qround Qminmax List Bool Lia Lqa.
From Stdlib Require Import String DecimalString.
Import ListNotations.
Open Scope string_scope.
Open Scope list_scope.
Open Scope Q_scope.

(** ** Python outcomes *)

Module Py.

(** The exception classes the dashboards can meet. *)
Inductive exn : Type :=
| EEException (msg : string)
| ValueError (msg : string)
| IndexError.

Inductive outcome (A : Type) : Type :=
| Returns (a : A)
| Raises (e : exn).
Arguments Returns {A} a.
Arguments Raises {A} e.

Definition bind {A B} (m : outcome A) (k : A -> outcome B) : outcome B :=
  match m with
  | Returns a => k a
  | Raises e => Raises e
  end.

(** [str(e)] *)
Definition str (e : exn) : string :=
  match e with
  | EEException msg => msg
  | ValueError msg => msg
  | IndexError => "list index out of range"
  end.

(** An integer inside an f-string. *)
Definition str_int (z : Z) : string := NilZero.string_of_int (Z.to_int z).

(** Rounding to the nearest integer, ties to the even one. *)
Definition round_half_even (q : Q) : Z :=
  let f := Qfloor q in
  match Qcompare (q - inject_Z f) (1 # 2) with
  | Lt => f
  | Gt => (f + 1)%Z
  | Eq => if Z.even f then f else (f + 1)%Z
  end.

(** [round(q, 2)] *)
Definition round2 (q : Q) : Q := round_half_even (q * 100) # 100.

(** A dict with integer keys, in insertion order. *)
Definition dict (V : Type) : Type := list (Z * V).

Definition dict_get {V} (d : dict V) (k : Z) : option V :=
  option_map snd (find (fun kv => fst kv =? k)%Z d).

(** [d[k] = v]: an existing key keeps its place and takes the new value. *)
Fixpoint dict_set {V} (k : Z) (v : V) (d : dict V) : dict V :=
  match d with
  | [] => [(k, v)]
  | (k', v') :: d' =>
      if (k' =? k)%Z then (k, v) :: d' else (k', v') :: dict_set k v d'
  end.

(** [{**d1, **d2}] *)
Definition dict_merge {V} (d1 d2 : dict V) : dict V :=
  fold_left (fun d kv => dict_set (fst kv) (snd kv) d) d2 d1.

Definition keys {V} (d : dict V) : list Z := map fst d.
Definition values {V} (d : dict V) : list V := map snd d.

(** [range(lo, hi)] *)
Definition range (lo hi : Z) : list Z :=
  map (fun i => lo + Z.of_nat i)%Z (seq 0 (Z.to_nat (hi - lo))).

End Py.

Notation "x <- m ;; k" := (Py.bind m (fun x => k))
  (at level 61, m at next level, right associativity).

(** ** Sums over lists *)

Section Sums.
Context {A : Type}.

Definition Qsum (f : A -> Q) (l : list A) : Q :=
  fold_right (fun a acc => f a + acc) 0 l.


Definition len (l : list A) : Z := Z.of_nat (List.length l).


End Sums.

(** ** The imagery service *)

Module EE.
Import Py.

(** One pixel of the 30 m grid: its place, its value unless masked, and
    its ground area in square metres ([ee.Image.pixelArea()]). *)
Record Pixel (A : Type) : Type := mkPixel {
  pos : Z * Z;
  value : option A;
  pixelArea : Q
}.
Arguments mkPixel {A} pos value pixelArea.
Arguments pos {A} p.
Arguments value {A} p.
Arguments pixelArea {A} p.

(** A single band over the pixels a reduction visits. *)
Definition Band (A : Type) : Type := list (Pixel A).

(** The bands [classification_<year>] of an image, by year. *)
Definition Image : Type := list (Z * Band Z).

(** A geometry, as the weight it gives to each pixel of the grid: the
    part of the pixel it covers, 0 outside. *)
Definition Geometry : Type := Z * Z -> Q.

Definition on_value {A B} (f : A -> option B) (p : Pixel A) : Pixel B :=
  {| pos := pos p;
     value := match value p with Some v => f v | None => None end;
     pixelArea := pixelArea p |}.

Fixpoint index_of (v : Z) (l : list Z) : option nat :=
  match l with
  | [] => None
  | x :: l' => if (x =? v)%Z then Some O else option_map S (index_of v l')
  end.

(** [remap(from, to)] on one value: the entry of [to] at the place of the
    value in [from]; a value that is not in [from] is masked, as no
    default value is given. *)
Definition remap_value (from to : list Z) (v : Z) : option Z :=
  match index_of v from with
  | Some i => nth_error to i
  | None => None
  end.

Definition remap (from to : list Z) (b : Band Z) : outcome (Band Z) :=
  if (List.length from =? List.length to)%nat
  then Returns (map (on_value (remap_value from to)) b)
  else Raises (EEException "Image.remap: from and to must have the same length.").

(** [band.eq(i)]: 1 where the value is [i], 0 elsewhere. *)
Definition eq (i : Z) (b : Band Z) : Band Z :=
  map (on_value (fun v => Some (if (v =? i)%Z then 1 else 0)%Z)) b.

(** [.multiply(ee.Image.pixelArea())] *)
Definition multiply_pixelArea (b : Band Z) : Band Q :=
  map (fun p => on_value (fun v => Some (inject_Z v * pixelArea p)) p) b.

(** [.clip(geometry)]: pixels outside the geometry are masked. *)
Definition clip {A} (g : Geometry) (b : Band A) : Band A :=
  map (fun p => if Qeq_bool (g (pos p)) 0
                then on_value (fun _ => None) p else p) b.

(** [reduceRegion(ee.Reducer.sum(), geometry)]: the weighted sum of the
    pixels that are not masked. *)
Definition reduceRegion_sum (g : Geometry) (b : Band Q) : Q :=
  Qsum (fun p => match value p with
                 | Some v => g (pos p) * v
                 | None => 0
                 end) b.

Definition bandNames (img : Image) : list Z := map fst img.

(** [image.select('classification_<year>')] *)
Definition select (img : Image) (year : Z) : outcome (Band Z) :=
  match find (fun yb => fst yb =? year)%Z img with
  | Some yb => Returns (snd yb)
  | None =>
      Raises (EEException ("Image.select: Pattern 'classification_"
                           ++ str_int year ++ "' did not match any bands.")%string)
  end.

End EE.

(** ** mapbiomas_globe.py *)

Module Globe.
Import Py EE.


Definition PALETTE : list string :=
  ["#006400"; "#B8AF4F"; "#FFD966"; "#E974ED"; "#0000FF"; "#FFFFFF"].

(** [{code: cls for code in codes}] *)
Definition comprehension (cls : Z) (codes : list Z) : dict Z :=
  fold_left (fun d code => dict_set code cls d) codes [].

(** [{**{code: c1 for code in l1}, **{code: c2 for code in l2}, ...}] *)
Definition class_mapping (groups : list (Z * list Z)) : dict Z :=
  fold_left (fun d g => dict_merge d (comprehension (fst g) (snd g)))
            groups [].

Definition CLASS_GROUPS : list (Z * list Z) :=
  [(1, [1; 3; 4; 5; 6; 49]);
   (2, [10; 11; 12; 32; 29; 50]);
   (3, [14; 15; 18; 19; 39; 20; 40; 62; 41; 36; 46; 47; 35; 48; 9; 21]);
   (4, [22; 23; 24; 30; 25]);
   (5, [26; 33; 31]);
   (6, [27])]%Z.

Definition CLASS_MAPPING : dict Z := class_mapping CLASS_GROUPS.

Inductive Message : Type :=
| StWarning (text : string)
| StError (text : string).

Record Row : Type := mkRow {
  Ano : Z;
  Classe : string;
  Area_km2 : Q
}.

Section ProcessData.
Variable mapbiomas_image : Image.
Variable geometry : option Geometry.

(** Without a geometry the reduction runs over the whole band. *)
Definition region : Geometry :=
  match geometry with Some g => g | None => fun _ => 1 end.

(** [band.remap(keys, values)], then [clip] if there is a geometry. *)
Definition remapped (year : Z) : outcome (Band Z) :=
  band <- select mapbiomas_image year ;;
  r <- remap (keys CLASS_MAPPING) (values CLASS_MAPPING) band ;;
  Returns (match geometry with Some g => clip g r | None => r end).

(** The first loop: one map layer per selected year. *)
Definition layer_step (st : list (string * Band Z) * list Message)
           (year : Z) : list (string * Band Z) * list Message :=
  let (layers, shown) := st in
  if negb (existsb (Z.eqb year) (bandNames mapbiomas_image))
  then (layers,
        shown ++ [StWarning ("Dados para " ++ str_int year
                             ++ " não disponíveis")%string])
  else
    match remapped year with
    | Returns r =>
        (layers ++ [(("MapBiomas " ++ str_int year)%string, r)], shown)
    | Raises e =>
        (layers,
         shown ++ [StError ("Erro no ano " ++ str_int year ++ ": "
                            ++ str e)%string])
    end.

Definition layer_loop (selected_years : list Z)
  : list (string * Band Z) * list Message :=
  fold_left layer_step selected_years ([], []).

(** [stats.get(band_name).getInfo() / 1e6] for one class. *)
Definition area_km2 (r : Band Z) (class_id : Z) : Q :=
  reduceRegion_sum region (multiply_pixelArea (eq class_id r)) / 1000000.


End ProcessData.

End Globe.

(** ** novo.py *)

Module Novo.
Import Py EE.

Record ClassConfig : Type := {
  codes : list Z;
  new_classes : list Z;
  palette : list string;
  names : dict string
}.

Definition CLASS_CONFIG : ClassConfig := {|
  codes := [0; 1; 3; 4; 5; 6; 49; 10; 11; 12; 32; 29; 50; 14; 15; 18; 19;
            39; 20; 40; 62; 41; 36; 46; 47; 35; 48; 9; 21; 22; 23; 24; 30;
            25; 26; 33; 31; 27]%Z;
  new_classes := [0; 1; 1; 1; 1; 1; 1; 2; 2; 2; 2; 2; 2; 3; 3; 3; 3; 3; 3;
                  3; 3; 3; 3; 3; 3; 3; 3; 3; 4; 4; 4; 4; 4; 4; 5; 5; 5; 6]%Z;
  palette := ["#ffffff"; "#1f8d49"; "#7dc975"; "#04381d"; "#007785";
              "#02d659"; "#d6bc74"; "#519799"; "#fc8114"; "#ffaa5f";
              "#ad5100"; "#ffefc3"; "#edde8e"; "#E974ED"; "#C27BA0";
              "#db7093"; "#c71585"; "#ff69b4"; "#f54ca9"; "#d082de";
              "#d68fe2"; "#9932cc"; "#9065d0"; "#e6ccff"; "#7a5900";
              "#d4271e"; "#ffa07a"; "#9c0027"; "#db4d4f"; "#2532e4";
              "#091077"];
  names := [(0, "Não Observado"); (1, "Floresta");
            (2, "Vegetação Herbácea"); (3, "Agropecuária");
            (4, "Área não Vegetada"); (5, "Corpo D'água");
            (6, "Não Observado")]%Z
|}.

(** [reclassify_bands(image, codes, new_classes)]: every band from 1985
    to 2023 is selected, remapped and put back under its own name.  An
    image made from a failing part fails as a whole when evaluated. *)
Fixpoint remap_years (image : Image) (codes new_classes : list Z)
         (years : list Z) : outcome Image :=
  match years with
  | [] => Returns []
  | year :: rest =>
      original_band <- select image year ;;
      remapped_band <- remap codes new_classes original_band ;;
      remapped_bands <- remap_years image codes new_classes rest ;;
      Returns ((year, remapped_band) :: remapped_bands)
  end.

Definition reclassify_bands (image : Image) (codes new_classes : list Z)
  : outcome Image :=
  remap_years image codes new_classes (range 1985 2024).

(** [CLASS_CONFIG['names'].get(i, f"Classe {i}")] *)
Definition class_name (names : dict string) (i : Z) : string :=
  match dict_get names i with
  | Some label => label
  | None => ("Classe " ++ str_int i)%string
  end.

Record Row : Type := mkRow {
  Ano : Z;
  Classe : Z;
  Nome_da_Classe : string;
  Area_km2 : Q
}.

(** What [areas.getInfo()] returns: a dict from reducer output names to
    lists of numbers. *)
Definition AreasDict : Type := list (string * list Q).

Definition get_key (d : AreasDict) (k : string) : option (list Q) :=
  option_map snd (find (fun kv => String.eqb (fst kv) k) d).

Section Stats.
Variable geometry : Geometry.

(** The area in square metres of class [i] inside the geometry. *)
Definition class_area_m2 (band : Band Z) (i : Z) : Q :=
  reduceRegion_sum geometry (multiply_pixelArea (eq i band)).


(** One row of [stats_data]. *)
Definition row (year : Z) (areas_list : list Q) (i : Z) : Row :=
  let area_m2 :=
    if (i <? len areas_list)%Z then nth (Z.to_nat i) areas_list 0 else 0 in
  let area_km2 := area_m2 / 1000000 in
  {| Ano := year;
     Classe := i;
     Nome_da_Classe := class_name (names CLASS_CONFIG) i;
     Area_km2 := round2 area_km2 |}.

(** The body of the loop over the selected years, with its [try]. *)
Definition stats_step (getInfo : Z -> outcome AreasDict)
           (st : list Row * list string) (year : Z)
  : list Row * list string :=
  let (stats_data, errors) := st in
  match getInfo year with
  | Returns areas_dict =>
      match get_key areas_dict "sum" with
      | Some areas_list =>
          (stats_data ++ map (row year areas_list) (range 0 7), errors)
      | None =>
          (stats_data,
           errors ++ [("Formato inesperado de resultados para "
                       ++ str_int year)%string])
      end
  | Raises e =>
      (stats_data,
       errors ++ [("Erro ao processar " ++ str_int year ++ ": "
                   ++ str e)%string])
  end.

Definition stats_loop (getInfo : Z -> outcome AreasDict)
           (selected_years : list Z) : list Row * list string :=
  fold_left (stats_step getInfo) selected_years ([], []).

End Stats.

End Novo.

(** ** rio.py: trend and statistics of a yearly series *)

Module Rio.

(** A float as numpy sees it: a finite value, an infinity or nan. *)
Inductive fval : Type :=
| Num (q : Q)
| PInf
| NInf
| NaN.


Definition finite (a : fval) : Prop :=
  match a with Num _ => True | _ => False end.

Definition sign (a : fval) : comparison :=
  match a with
  | Num q => q ?= 0
  | PInf => Gt
  | NInf => Lt
  | NaN => Eq
  end.

Definition sign_mul (s t : comparison) : comparison :=
  match s, t with
  | Eq, _ | _, Eq => Eq
  | Gt, Gt | Lt, Lt => Gt
  | _, _ => Lt
  end.

(** The infinity of a given sign; no sign (0 * inf, 0 / 0) gives nan. *)
Definition inf_of (s : comparison) : fval :=
  match s with Gt => PInf | Lt => NInf | Eq => NaN end.




Definition fmul (a b : fval) : fval :=
  match a, b with
  | NaN, _ | _, NaN => NaN
  | Num p, Num q => Num (p * q)
  | _, _ => inf_of (sign_mul (sign a) (sign b))
  end.

(** numpy true division: a zero divisor raises nothing, it yields an
    infinity of the sign of the dividend, or nan for 0 / 0. *)
Definition fdiv (a b : fval) : fval :=
  match a, b with
  | NaN, _ | _, NaN => NaN
  | Num p, Num q => if Qeq_bool q 0 then inf_of (sign a) else Num (p / q)
  | Num _, _ => Num 0
  | _, Num q => inf_of (sign_mul (sign a) (if Qle_bool 0 q then Gt else Lt))
  | _, _ => NaN
  end.

(** The data frame [df_water], reduced to the column [Ano] and the column
    selected by [y_metric]. *)
Definition Series : Type := list (Z * Q).

Definition Ano (r : Z * Q) : Z := fst r.
Definition y_of (r : Z * Q) : Q := snd r.

Section Trend.
Variable df_water : Series.


Definition n : Z := len df_water.
Definition sum_y : Q := Qsum y_of df_water.











Definition y_mean : fval := fdiv (Num sum_y) (Num (inject_Z n)).


End Trend.

End Rio.

(** ** Test scenes *)

Module Scene.
Import Py EE.

(** A band of [rows] x [cols] pixels of 900 square metres each (30 m
    resolution), every one holding the raw code [code]. *)
Definition grid (rows cols : Z) (code : Z) : Band Z :=
  flat_map (fun r => map (fun c => mkPixel (r, c) (Some code) 900)
                         (range 0 cols))
           (range 0 rows).

(** The geometry that covers exactly the pixels of such a band. *)
Definition whole (rows cols : Z) : Geometry :=
  fun rc =>
    if ((0 <=? fst rc) && (fst rc <? rows)
        && (0 <=? snd rc) && (snd rc <? cols))%Z
    then 1 else 0.

(** The same band under every year from 1985 to 2023. *)
Definition every_year (b : Band Z) : Image :=
  map (fun y => (y, b)) (range 1985 2024).
End Scene.

(** ** Quantities the statements are written with *)

Module Quantities.
Import Py EE.



(** What one pixel of a class band adds to the area of class [i]. *)
Definition contrib (g : Geometry) (i : Z) (p : Pixel Z) : Q :=
  match value p with
  | Some v => g (pos p) * (inject_Z (if (v =? i)%Z then 1 else 0) * pixelArea p)
  | None => 0
  end.


(** The band that [reclassify_bands] stores under a year. *)
Definition band_of (image : Image) (from to : list Z) (y : Z) : Band Z :=
  match select image y with
  | Returns b => map (on_value (remap_value from to)) b
  | Raises _ => []
  end.

(** What the loop does with one year on its own. *)
Definition year_result (getInfo : Z -> outcome Novo.AreasDict)
           (year : Z) : list Novo.Row * list string :=
  Novo.stats_step getInfo ([], []) year.

(** The value a key takes when pairs are written one after the other. *)
Definition lookup_last {V} (kvs : list (Z * V)) (k : Z) (init : option V)
  : option V :=
  fold_left (fun acc kv => if (fst kv =? k)%Z then Some (snd kv) else acc)
            kvs init.

(** The class of the last group that lists a code. *)
Definition last_listing (groups : list (Z * list Z)) (code : Z) : option Z :=
  fold_left (fun acc g => if existsb (Z.eqb code) (snd g)
                          then Some (fst g) else acc)
            groups None.

(** The ground area inside the geometry held by pixels whose raw code is
    among [codes]. *)
Definition listed_area (codes : list Z) (g : Geometry) (b : Band Z) : Q :=
  Qsum (fun p => match value p with
                 | Some v => if existsb (Z.eqb v) codes
                             then g (pos p) * pixelArea p else 0
                 | None => 0
                 end) b.

(** The ground area of the geometry over the grid of the band. *)
Definition region_area (g : Geometry) (b : Band Z) : Q :=
  Qsum (fun p => g (pos p) * pixelArea p) b.

Definition inside (g : Geometry) (rc : Z * Z) : bool :=
  negb (Qeq_bool (g rc) 0).

(** A pixel of the geometry with a neighbour outside of it. *)
Definition on_boundary (g : Geometry) (rc : Z * Z) : bool :=
  let (r, c) := rc in
  inside g rc
  && negb (inside g (r - 1, c) && inside g (r + 1, c)
           && inside g (r, c - 1) && inside g (r, c + 1))%Z.

Definition boundary_count (g : Geometry) (b : Band Z) : Z :=
  len (filter (fun p => on_boundary g (pos p)) b).


End Quantities.

(** ** rio.py: the figures shown beside the trend *)

Module RioReport.
Import Py Rio.




(** [s.idxmax()]: the first row that holds the greatest value. *)
Fixpoint idxmax_from (best : Z * Q) (rest : list (Z * Q)) : Z * Q :=
  match rest with
  | [] => best
  | r :: rest' =>
      if Qle_bool (y_of r) (y_of best)
      then idxmax_from best rest' else idxmax_from r rest'
  end.

(** [df_water.loc[df_water[column].idxmax(), 'Ano']] *)
Definition max_year (df_water : Series) : outcome Z :=
  match df_water with
  | [] => Raises (ValueError "attempt to get argmax of an empty sequence")
  | r :: rest => Returns (Ano (idxmax_from r rest))
  end.


End RioReport.

(** ** novo.py: the municipalities, the aggregated table and the pie *)

Module NovoReport.
Import Py EE Novo.

Section Municipios.
Variable G : Type.

(** A feature of the GeoJSON file: [properties.get('NM_MUNICIP')] and
    [geometry]. *)
Record Feature : Type := {
  NM_MUNICIP : option string;
  geometry : G
}.

(** A dict with string keys, in insertion order. *)
Definition sdict : Type := list (string * G).

Definition get_item (d : sdict) (k : string) : option G :=
  option_map snd (find (fun kv => String.eqb (fst kv) k) d).

Fixpoint set_item (k : string) (v : G) (d : sdict) : sdict :=
  match d with
  | [] => [(k, v)]
  | (k', v') :: d' =>
      if String.eqb k' k then (k, v) :: d' else (k', v') :: set_item k v d'
  end.

(** [load_municipios()]: one entry per named feature of the file; without
    a file the dict is empty. *)
Definition load_municipios (geojson_data : option (list Feature)) : sdict :=
  match geojson_data with
  | Some features =>
      fold_left (fun municipios feature =>
                   match NM_MUNICIP feature with
                   | Some nome =>
                       if String.eqb nome "" then municipios
                       else set_item nome (geometry feature) municipios
                   | None => municipios
                   end)
                features []
  | None => []
  end.

(** The geometry of the last feature of the file that carries a name. *)
Definition last_named (features : list Feature) (nome : string) : option G :=
  fold_left (fun found feature =>
               match NM_MUNICIP feature with
               | Some n => if String.eqb n nome
                           then Some (geometry feature) else found
               | None => found
               end)
            features None.
End Municipios.

(** The key of [df.groupby(['Ano', 'Nome da Classe'])]. *)
Definition Key : Type := Z * string.

Definition key_of (r : Row) : Key := (Ano r, Nome_da_Classe r).

Definition key_eqb (a b : Key) : bool :=
  (fst a =? fst b)%Z && String.eqb (snd a) (snd b).

Definition key_ltb (a b : Key) : bool :=
  (fst a <? fst b)%Z || ((fst a =? fst b)%Z && String.ltb (snd a) (snd b)).

Fixpoint insert_sorted (k : Key) (l : list Key) : list Key :=
  match l with
  | [] => [k]
  | h :: t => if key_ltb k h then k :: l else h :: insert_sorted k t
  end.

Definition add_key (k : Key) (l : list Key) : list Key :=
  if existsb (key_eqb k) l then l else insert_sorted k l.

(** The groups: the keys met in the rows, each once, in order. *)
Definition group_keys (df : list Row) : list Key :=
  fold_left (fun l r => add_key (key_of r) l) df [].

Record AggRow : Type := {
  agg_Ano : Z;
  agg_Nome : string;
  agg_Area : Q
}.

(** [df.groupby(['Ano', 'Nome da Classe'])['Área (km²)'].sum().reset_index()] *)
Definition df_agg (df : list Row) : list AggRow :=
  map (fun k => {| agg_Ano := fst k;
                   agg_Nome := snd k;
                   agg_Area := Qsum Area_km2
                                 (filter (fun r => key_eqb (key_of r) k) df) |})
      (group_keys df).

(** [df_agg[df_agg['Ano'] == selected_year]] *)
Definition year_df (agg : list AggRow) (selected_year : Z) : list AggRow :=
  filter (fun a => (agg_Ano a =? selected_year)%Z) agg.

Definition total_area (ydf : list AggRow) : Q := Qsum agg_Area ydf.

(** [(year_df['Área (km²)'] / total_area) * 100] *)
Definition porcentagem (total : Q) (a : AggRow) : Rio.fval :=
  Rio.fmul (Rio.fdiv (Rio.Num (agg_Area a)) (Rio.Num total)) (Rio.Num 100).

Definition pie (agg : list AggRow) (selected_year : Z) : list Rio.fval :=
  let ydf := year_df agg selected_year in
  map (porcentagem (total_area ydf)) ydf.
End NovoReport.

(** * Theorems *)


(** ** Facts about sums *)

Section SumFacts.
Context {A : Type}.
Implicit Types (l : list A) (X Y : A -> Q).


Lemma len_nonneg l : (0 <= len l)%Z.
Proof. unfold len. lia. Qed.

Lemma Qsum_cons X a l : Qsum X (a :: l) = X a + Qsum X l.
Proof. reflexivity. Qed.

Lemma Qsum_ext X Y l :
  (forall a, In a l -> X a == Y a) -> Qsum X l == Qsum Y l.
Proof.
  induction l as [|a l IH]; intros H; [reflexivity|].
  rewrite !Qsum_cons, (H a (or_introl eq_refl)), IH; [reflexivity|].
  intros; apply H; now right.
Qed.




















End SumFacts.

(** ** rio.py: the trend *)

Module RioFacts.
Import Rio Quantities.









Lemma Qeq_bool_false (q : Q) : ~ q == 0 -> Qeq_bool q 0 = false.
Proof.
  intros H. destruct (Qeq_bool q 0) eqn:E; [|reflexivity].
  apply Qeq_bool_eq in E. contradiction.
Qed.















End RioFacts.

(** ** The imagery service: remapping *)

Module EEFacts.
Import Py EE.

Lemma index_of_nth v l i : index_of v l = Some i -> nth_error l i = Some v.
Proof.
  revert i. induction l as [|x l IH]; intros i H; [discriminate|].
  cbn in H. destruct (Z.eqb_spec x v) as [->|Hne].
  - injection H as <-. reflexivity.
  - destruct (index_of v l) as [j|]; [|discriminate].
    injection H as <-. cbn. now apply IH.
Qed.


Lemma index_of_None v l : index_of v l = None <-> ~ In v l.
Proof.
  induction l as [|x l IH]; cbn; [tauto|].
  destruct (Z.eqb_spec x v) as [->|Hne].
  - split; [discriminate|]. intros H; exfalso; auto.
  - destruct (index_of v l); cbn.
    + split; [discriminate|]. intros H. exfalso. apply H. right.
      destruct IH as [_ IH]. destruct (in_dec Z.eq_dec v l); [assumption|].
      specialize (IH n0). discriminate.
    + split; [|reflexivity]. intros _ [H|H]; [congruence|]. now apply IH.
Qed.

(** A value that is not in [from] is masked. *)
Lemma remap_value_unlisted from to v :
  ~ In v from -> remap_value from to v = None.
Proof.
  intros H. unfold remap_value. apply index_of_None in H. now rewrite H.
Qed.

(** A remapped value is an entry of [to]. *)
Lemma remap_value_in from to v c :
  remap_value from to v = Some c -> In c to.
Proof.
  unfold remap_value. destruct (index_of v from); [|discriminate].
  apply nth_error_In.
Qed.

(** Under an identity scheme a listed value maps to itself. *)
Lemma remap_value_identity ids v :
  In v ids -> remap_value ids ids v = Some v.
Proof.
  intros H. unfold remap_value.
  destruct (index_of v ids) as [i|] eqn:E.
  - now apply index_of_nth.
  - apply index_of_None in E. contradiction.
Qed.

Lemma on_value_identity_after from to ids (p : Pixel Z) :
  incl to ids ->
  on_value (remap_value ids ids) (on_value (remap_value from to) p)
  = on_value (remap_value from to) p.
Proof.
  intros Hin. unfold on_value. cbn. f_equal.
  destruct (value p) as [v|]; [|reflexivity].
  destruct (remap_value from to v) as [c|] eqn:E; [|reflexivity].
  apply remap_value_identity, Hin. now apply remap_value_in in E.
Qed.

Lemma remap_same_length l b :
  remap l l b = Returns (map (on_value (remap_value l l)) b).
Proof. unfold remap. now rewrite Nat.eqb_refl. Qed.

(** Band by band: remapping the outcome of a remap under the identity
    scheme of its classes changes nothing. *)
Lemma remap_identity_after from to ids b r :
  incl to ids ->
  remap from to b = Returns r -> remap ids ids r = Returns r.
Proof.
  intros Hin. unfold remap at 1.
  destruct (List.length from =? List.length to)%nat; [|discriminate].
  intros H. injection H as <-. rewrite remap_same_length. apply f_equal.
  rewrite map_map. apply map_ext. intros p.
  now apply on_value_identity_after.
Qed.

Lemma select_cons_eq y b img : select ((y, b) :: img) y = Returns b.
Proof. unfold select. cbn. now rewrite Z.eqb_refl. Qed.

Lemma select_cons_ne y y' b img :
  y' <> y -> select ((y', b) :: img) y = select img y.
Proof.
  intros H. unfold select. cbn.
  destruct (Z.eqb_spec y' y); [contradiction|reflexivity].
Qed.

End EEFacts.

(** ** Reclassification and class areas *)

Module AreaFacts.
Import Py EE Quantities.

Lemma Qsum_map {A B} (f : B -> Q) (h : A -> B) (l : list A) :
  Qsum f (map h l) = Qsum (fun a => f (h a)) l.
Proof.
  induction l as [|a l IH]; [reflexivity|].
  cbn [map]. rewrite !Qsum_cons. now rewrite IH.
Qed.


Lemma reduce_class_band g b i :
  reduceRegion_sum g (multiply_pixelArea (eq i b)) = Qsum (contrib g i) b.
Proof.
  unfold reduceRegion_sum, multiply_pixelArea, eq.
  rewrite !Qsum_map. induction b as [|p b IH]; [reflexivity|].
  rewrite !Qsum_cons, IH. f_equal.
  unfold contrib, on_value; cbn. now destruct (value p).
Qed.



End AreaFacts.

(** ** novo.py *)

Module NovoFacts.
Import Py EE Novo Quantities AreaFacts.


Lemma remap_years_returns image from to ys r :
  remap_years image from to ys = Returns r ->
  r = map (fun y => (y, band_of image from to y)) ys.
Proof.
  revert r. induction ys as [|y ys IH]; intros r H; cbn in H.
  - now injection H as <-.
  - unfold band_of at 1. cbn [map].
    destruct (select image y) as [b|e]; [|discriminate]. cbn in H.
    unfold remap in H.
    destruct (List.length from =? List.length to)%nat; [|discriminate].
    cbn in H.
    destruct (remap_years image from to ys) as [r'|e]; [|discriminate].
    cbn in H. injection H as <-. f_equal. now apply IH.
Qed.

Lemma select_tabulated (h : Z -> Band Z) ys y :
  In y ys -> select (map (fun y => (y, h y)) ys) y = Returns (h y).
Proof.
  induction ys as [|y0 ys IH]; intros H; [contradiction|].
  cbn [map]. destruct (Z.eq_dec y0 y) as [->|Hne].
  - apply EEFacts.select_cons_eq.
  - rewrite EEFacts.select_cons_ne by assumption.
    destruct H as [H|H]; [contradiction|]. now apply IH.
Qed.

Lemma remap_years_fixed (h : Z -> Band Z) ids ys ys' :
  incl ys' ys ->
  (forall y, remap ids ids (h y) = Returns (h y)) ->
  remap_years (map (fun y => (y, h y)) ys) ids ids ys'
  = Returns (map (fun y => (y, h y)) ys').
Proof.
  intros Hin Hfix. induction ys' as [|y ys' IH]; [reflexivity|].
  cbn [remap_years map].
  rewrite (select_tabulated h ys y) by (apply Hin; now left). cbn [bind].
  rewrite Hfix. cbn [bind].
  rewrite IH by (intros z Hz; apply Hin; now right). reflexivity.
Qed.

Lemma remap_years_identity_after image from to ids ys :
  incl to ids ->
  (r <- remap_years image from to ys ;; remap_years r ids ids ys)
  = remap_years image from to ys.
Proof.
  intros Hin.
  destruct (remap_years image from to ys) as [r|e] eqn:E; [|reflexivity].
  cbn [bind]. rewrite (remap_years_returns _ _ _ _ _ E).
  apply remap_years_fixed; [apply incl_refl|].
  intros y. rewrite EEFacts.remap_same_length. apply f_equal.
  unfold band_of. destruct (select image y) as [b|e]; [|reflexivity].
  rewrite map_map. apply map_ext. intros p.
  now apply EEFacts.on_value_identity_after.
Qed.

(** C8. Reclassifying twice under an identity scheme (the same list as
    codes and as classes) gives what reclassifying once gives; and an image
    already reclassified under any scheme comes back unchanged from the
    identity scheme of that scheme's classes. *)
Theorem reclassify_identity_idempotent :
  (forall (image : Image) (ids : list Z),
      (r <- reclassify_bands image ids ids ;; reclassify_bands r ids ids)
      = reclassify_bands image ids ids) /\
  (forall (image : Image) (from to : list Z),
      (r <- reclassify_bands image from to ;; reclassify_bands r to to)
      = reclassify_bands image from to) /\
  (forall (from to : list Z) (band r : Band Z),
      remap from to band = Returns r -> remap to to r = Returns r).
Proof.
  split; [|split].
  - intros image ids. apply remap_years_identity_after, incl_refl.
  - intros image from to. apply remap_years_identity_after, incl_refl.
  - intros from to band r. apply EEFacts.remap_identity_after, incl_refl.
Qed.

Lemma reclassify_identity_idempotent_scene :
  remap [7]%Z [1]%Z (Scene.grid 2 2 7) = Returns (Scene.grid 2 2 1) /\
  remap [1]%Z [1]%Z (Scene.grid 2 2 1) = Returns (Scene.grid 2 2 1).
Proof.
  assert (H : remap [7]%Z [1]%Z (Scene.grid 2 2 7)
              = Returns (Scene.grid 2 2 1)) by reflexivity.
  split; [exact H|].
  destruct reclassify_identity_idempotent as (_ & _ & H3).
  exact (H3 [7]%Z [1]%Z (Scene.grid 2 2 7) (Scene.grid 2 2 1) H).
Defined.

Lemma stats_step_acc getInfo rows errors year :
  stats_step getInfo (rows, errors) year
  = (rows ++ fst (year_result getInfo year),
     errors ++ snd (year_result getInfo year)).
Proof.
  unfold year_result, stats_step.
  destruct (getInfo year) as [d|e]; cbn.
  - destruct (get_key d "sum"); cbn; now rewrite ?app_nil_r.
  - now rewrite app_nil_r.
Qed.

Lemma stats_fold getInfo years rows errors :
  fold_left (stats_step getInfo) years (rows, errors)
  = (rows ++ flat_map (fun y => fst (year_result getInfo y)) years,
     errors ++ flat_map (fun y => snd (year_result getInfo y)) years).
Proof.
  revert rows errors. induction years as [|y ys IH]; intros rows errors.
  - cbn. now rewrite !app_nil_r.
  - cbn [fold_left flat_map]. rewrite stats_step_acc, IH.
    now rewrite <- !app_assoc.
Qed.

(** The loop of novo.py keeps the years apart: its rows and its error
    messages are those of each selected year, in order, whatever the fetch
    of the other years did. *)
Lemma stats_loop_per_year getInfo years :
  stats_loop getInfo years
  = (flat_map (fun y => fst (year_result getInfo y)) years,
     flat_map (fun y => snd (year_result getInfo y)) years).
Proof. unfold stats_loop. now rewrite stats_fold. Qed.

(** A year whose fetch raises gives no row and one message that names the
    year and the reason. *)
Lemma year_result_raises getInfo year e :
  getInfo year = Raises e ->
  year_result getInfo year
  = ([], [("Erro ao processar " ++ str_int year ++ ": " ++ str e)%string]).
Proof. intros H. unfold year_result, stats_step. now rewrite H. Qed.



(** The batch of the scenario: 2021 cannot be fetched. *)
Lemma stats_loop_2021_unavailable (sums : list Q) :
  let getInfo := fun y =>
    if (y =? 2021)%Z then Raises (EEException "band unavailable")
    else Returns [("sum", sums)] in
  stats_loop getInfo [2020; 2021; 2022]%Z
  = (map (row 2020 sums) (range 0 7) ++ map (row 2022 sums) (range 0 7),
     ["Erro ao processar 2021: band unavailable"]).
Proof. reflexivity. Qed.
End NovoFacts.

(** ** mapbiomas_globe.py *)

Module GlobeFacts.
Import Py EE Globe Quantities AreaFacts.


Lemma select_present image y :
  In y (bandNames image) -> exists b, select image y = Returns b.
Proof.
  intros H. unfold select.
  destruct (find (fun yb => (fst yb =? y)%Z) image) as [yb|] eqn:E.
  - now exists (snd yb).
  - exfalso. unfold bandNames in H. apply in_map_iff in H.
    destruct H as (yb & <- & Hin).
    apply (find_none _ _ E) in Hin. now rewrite Z.eqb_refl in Hin.
Qed.





(** The layer loop of the same function does skip the missing year. *)
Lemma layer_loop_skips_2021 :
  let image := [(2020%Z, Scene.grid 1 1 1); (2022%Z, Scene.grid 1 1 1)] in
  let out := layer_loop image (Some (Scene.whole 1 1)) [2020; 2021; 2022]%Z in
  map fst (fst out) = ["MapBiomas 2020"; "MapBiomas 2022"] /\
  snd out = [StWarning "Dados para 2021 não disponíveis"].
Proof. split; reflexivity. Qed.



End GlobeFacts.

(** ** The class tables *)

Module SchemeFacts.
Import Py EE Quantities.

Lemma dict_get_set {V} (k : Z) (v : V) (d : dict V) (k' : Z) :
  dict_get (dict_set k v d) k' = if (k =? k')%Z then Some v else dict_get d k'.
Proof.
  unfold dict_get. induction d as [|[k0 v0] d IH]; cbn.
  - now destruct (k =? k')%Z.
  - destruct (Z.eqb_spec k0 k) as [->|Hne]; cbn.
    + now destruct (k =? k')%Z.
    + destruct (Z.eqb_spec k0 k') as [->|Hne'].
      * destruct (Z.eqb_spec k k'); [congruence|reflexivity].
      * exact IH.
Qed.

Lemma In_dict_set {V} (k : Z) (v : V) (d : dict V) kv :
  In kv (dict_set k v d) -> kv = (k, v) \/ In kv d.
Proof.
  induction d as [|[k0 v0] d IH]; cbn.
  - intros [<-|[]]. now left.
  - destruct (k0 =? k)%Z; cbn.
    + intros [<-|H]; auto.
    + intros [<-|H]; auto. destruct (IH H); auto.
Qed.

Lemma dict_get_merge {V} (d1 d2 : dict V) (k : Z) :
  dict_get (dict_merge d1 d2) k = lookup_last d2 k (dict_get d1 k).
Proof.
  unfold dict_merge, lookup_last. revert d1.
  induction d2 as [|[k0 v0] d2 IH]; intros d1; [reflexivity|].
  cbn [fold_left fst snd]. now rewrite IH, dict_get_set.
Qed.

Lemma lookup_last_uniform {V} (cls : V) (l : list (Z * V)) k init :
  (forall kv, In kv l -> snd kv = cls) ->
  lookup_last l k init
  = match dict_get l k with Some _ => Some cls | None => init end.
Proof.
  unfold lookup_last, dict_get. revert init.
  induction l as [|[k0 v0] l IH]; intros init H; [reflexivity|].
  cbn [fold_left fst snd find].
  rewrite IH by (intros; apply H; now right).
  assert (v0 = cls) by exact (H (k0, v0) (or_introl eq_refl)). subst v0.
  destruct (k0 =? k)%Z; cbn; [|reflexivity].
  now destruct (find (fun kv => (fst kv =? k)%Z) l).
Qed.

Lemma comprehension_fold (cls : Z) (codes : list Z) (d : dict Z) (k : Z) :
  dict_get (fold_left (fun d code => dict_set code cls d) codes d) k
  = if existsb (Z.eqb k) codes then Some cls else dict_get d k.
Proof.
  revert d. induction codes as [|c codes IH]; intros d; [reflexivity|].
  cbn [fold_left existsb]. rewrite IH, dict_get_set.
  rewrite (Z.eqb_sym k c).
  destruct (existsb (Z.eqb k) codes); [now rewrite orb_true_r|].
  now rewrite orb_false_r.
Qed.

Lemma comprehension_get cls codes k :
  dict_get (Globe.comprehension cls codes) k
  = if existsb (Z.eqb k) codes then Some cls else None.
Proof. unfold Globe.comprehension. now rewrite comprehension_fold. Qed.

Lemma comprehension_values cls codes kv :
  In kv (Globe.comprehension cls codes) -> snd kv = cls.
Proof.
  unfold Globe.comprehension.
  assert (G : forall d, (forall kv, In kv d -> snd kv = cls) ->
                        In kv (fold_left (fun d code => dict_set code cls d)
                                         codes d) -> snd kv = cls).
  { induction codes as [|c codes IH]; intros d Hd; cbn [fold_left].
    - apply Hd.
    - apply IH. intros kv' H'. apply In_dict_set in H'.
      destruct H' as [->|H']; [reflexivity|now apply Hd]. }
  apply G. intros ? [].
Qed.

Lemma class_mapping_get groups code :
  dict_get (Globe.class_mapping groups) code = last_listing groups code.
Proof.
  unfold Globe.class_mapping, last_listing.
  change (@None Z) with (dict_get (@nil (Z * Z)) code).
  generalize (@nil (Z * Z)) as d.
  induction groups as [|[cls codes] groups IH]; intros d; [reflexivity|].
  cbn [fold_left fst snd]. rewrite IH, dict_get_merge.
  rewrite (lookup_last_uniform cls) by apply comprehension_values.
  rewrite comprehension_get.
  now destruct (existsb (Z.eqb code) codes).
Qed.

(** C5, on a table that lists raw code 3 twice: it is built all the same
    and code 3 takes its last class; a class without a name is given a
    label. *)
Lemma duplicate_code_accepted :
  Globe.class_mapping [(1, [1; 3]); (2, [3])]%Z = [(1, 1); (3, 2)]%Z /\
  Novo.class_name [(1%Z, "Floresta")] 2 = "Classe 2".
Proof. split; reflexivity. Qed.

(** C5, as the code has it.  Nothing checks a scheme when it is written
    down.  In the merged table of mapbiomas_globe.py a raw code takes the
    class of the last group that lists it; the parallel lists of novo.py
    go to the remap as they are, and lists of different lengths make the
    evaluation of the image fail with the service's error; a class index
    without a name is shown as "Classe i". *)
Theorem scheme_tables_unchecked :
  (forall groups code,
      dict_get (Globe.class_mapping groups) code = last_listing groups code) /\
  (forall image from to,
      List.length from <> List.length to ->
      exists msg, Novo.reclassify_bands image from to = Raises (EEException msg)) /\
  (forall (names : dict string) i,
      dict_get names i = None ->
      Novo.class_name names i = ("Classe " ++ str_int i)%string).
Proof.
  split; [exact class_mapping_get|]. split.
  - intros image from to Hlen. unfold Novo.reclassify_bands.
    change (range 1985 2024) with (1985%Z :: range 1986 2024).
    cbn [Novo.remap_years]. unfold select.
    destruct (find (fun yb => (fst yb =? 1985)%Z) image); cbn [bind].
    + unfold remap. apply Nat.eqb_neq in Hlen. rewrite Hlen. cbn [bind]. eauto.
    + eauto.
  - intros names i H. unfold Novo.class_name. now rewrite H.
Qed.

Lemma scheme_tables_unchecked_codes_1_2 :
  exists msg,
    Novo.reclassify_bands (Scene.every_year (Scene.grid 1 1 1)) [1; 2]%Z [1]%Z
    = Raises (EEException msg).
Proof.
  destruct scheme_tables_unchecked as (_ & H & _).
  apply (H (Scene.every_year (Scene.grid 1 1 1)) [1; 2]%Z [1]%Z).
  cbn. discriminate.
Defined.
End SchemeFacts.

(** ** The sum of the class areas *)

Module ConservationFacts.
Import Py EE Novo Quantities AreaFacts.

Lemma Qsum_zero {A} (l : list A) : Qsum (fun _ => 0) l == 0.
Proof. induction l as [|a l IH]; [reflexivity|]. rewrite Qsum_cons, IH. ring. Qed.

Lemma Qsum_plus {A} (f h : A -> Q) (l : list A) :
  Qsum (fun a => f a + h a) l == Qsum f l + Qsum h l.
Proof.
  induction l as [|a l IH]; [cbn; ring|]. rewrite !Qsum_cons, IH. ring.
Qed.

Lemma Qsum_scale {A} (f : A -> Q) (k : Q) (l : list A) :
  Qsum (fun a => f a * k) l == Qsum f l * k.
Proof.
  induction l as [|a l IH]; [cbn; ring|]. rewrite !Qsum_cons, IH. ring.
Qed.











Lemma unlisted_band_figures :
  region_area (Scene.whole 10 10) (Scene.grid 10 10 13) == 90000 /\
  boundary_count (Scene.whole 10 10) (Scene.grid 10 10 13) = 36%Z /\
  listed_area (codes CLASS_CONFIG) (Scene.whole 10 10) (Scene.grid 10 10 13)
  == 0.
Proof. repeat split; vm_compute; reflexivity. Qed.

End ConservationFacts.

(** ** rio.py: the trend line and the figures beside it *)

Module RioReportFacts.
Import Py Rio Quantities RioFacts RioReport.
















Lemma idxmax_from_first best rest :
  (idxmax_from best rest = best /\
   forall r, In r rest -> y_of r <= y_of best) \/
  (exists before after,
      rest = before ++ idxmax_from best rest :: after /\
      y_of best < y_of (idxmax_from best rest) /\
      (forall r, In r before -> y_of r < y_of (idxmax_from best rest)) /\
      (forall r, In r after -> y_of r <= y_of (idxmax_from best rest))).
Proof.
  revert best. induction rest as [|x rest IH]; intros best.
  - left. split; [reflexivity|]. intros r [].
  - cbn [idxmax_from]. destruct (Qle_bool (y_of x) (y_of best)) eqn:E.
    + apply Qle_bool_iff in E.
      destruct (IH best) as [(Hb & Hall)|(before & after & Hr & Hlt & Hbe & Haf)].
      * left. split; [exact Hb|]. intros r [<-|Hr]; [exact E|now apply Hall].
      * right. exists (x :: before), after. split; [cbn; now f_equal|].
        split; [exact Hlt|]. split; [|exact Haf].
        intros r [<-|Hr']; [|now apply Hbe].
        eapply Qle_lt_trans; [exact E|exact Hlt].
    + assert (Hlt : y_of best < y_of x).
      { apply Qnot_le_lt. intros Hle. apply Qle_bool_iff in Hle. congruence. }
      right.
      destruct (IH x) as [(Hb & Hall)|(before & after & Hr & Hlt' & Hbe & Haf)].
      * exists [], rest. rewrite Hb. split; [reflexivity|].
        split; [exact Hlt|]. split; [intros r []|exact Hall].
      * exists (x :: before), after. split; [cbn; now f_equal|].
        split; [eapply Qlt_trans; eassumption|]. split; [|exact Haf].
        intros r [<-|Hr']; [exact Hlt'|now apply Hbe].
Qed.

(** The year shown as the one of greatest area is the year of the first
    row that holds the greatest value: the rows before it are strictly
    smaller and no row after it is greater.  An empty frame has no such
    row and the lookup fails. *)
Theorem max_year_is_first_maximum :
  max_year [] = Raises (ValueError "attempt to get argmax of an empty sequence") /\
  forall df, df <> [] ->
    exists before r after,
      df = before ++ r :: after /\
      max_year df = Returns (Ano r) /\
      (forall r', In r' before -> y_of r' < y_of r) /\
      (forall r', In r' after -> y_of r' <= y_of r).
Proof.
  split; [reflexivity|]. intros df Hne.
  destruct df as [|r0 rest]; [congruence|]. cbn [max_year].
  destruct (idxmax_from_first r0 rest)
    as [(Hb & Hall)|(before & after & Hr & Hlt & Hbe & Haf)].
  - exists [], r0, rest. rewrite Hb. repeat split; trivial. intros r' [].
  - exists (r0 :: before), (idxmax_from r0 rest), after.
    split; [cbn; now f_equal|]. split; [reflexivity|]. split; [|exact Haf].
    intros r' [<-|Hr']; [exact Hlt|now apply Hbe].
Qed.

Lemma max_year_is_first_maximum_tie :
  exists before r after,
    [(1985%Z, 4); (1986%Z, 9); (1987%Z, 9)] = before ++ r :: after /\
    max_year [(1985%Z, 4); (1986%Z, 9); (1987%Z, 9)] = Returns (Ano r) /\
    (forall r', In r' before -> y_of r' < y_of r) /\
    (forall r', In r' after -> y_of r' <= y_of r).
Proof.
  destruct max_year_is_first_maximum as (_ & H). apply H. discriminate.
Defined.



End RioReportFacts.

(** ** novo.py: the municipalities, the loop, the aggregated table, the pie *)

Module NovoReportFacts.
Import Py EE Novo Quantities AreaFacts NovoReport.

Lemma get_set_item {G} (k : string) (v : G) (d : sdict G) (k' : string) :
  get_item G (set_item G k v d) k'
  = if String.eqb k k' then Some v else get_item G d k'.
Proof.
  unfold get_item. induction d as [|[k0 v0] d IH]; cbn.
  - now destruct (String.eqb k k').
  - destruct (String.eqb_spec k0 k) as [->|Hne]; cbn.
    + now destruct (String.eqb k k').
    + destruct (String.eqb_spec k0 k') as [->|Hne'].
      * destruct (String.eqb_spec k k'); [congruence|reflexivity].
      * exact IH.
Qed.

(** The dict of municipalities gives, for a name, the geometry of the last
    feature of the file with that name; features without a name or with
    an empty one are left out, and without a file the dict is empty. *)
Theorem load_municipios_lookup {G} :
  load_municipios G None = [] /\
  forall (features : list (Feature G)) (nome : string),
    (nome <> "" ->
     get_item G (load_municipios G (Some features)) nome
     = last_named G features nome) /\
    get_item G (load_municipios G (Some features)) "" = None.
Proof.
  split; [reflexivity|]. intros features nome.
  assert (Gen : forall d k,
    get_item G (fold_left (fun municipios feature =>
                   match NM_MUNICIP G feature with
                   | Some n => if String.eqb n "" then municipios
                               else set_item G n (geometry G feature) municipios
                   | None => municipios
                   end) features d) k
    = if String.eqb k "" then get_item G d k
      else fold_left (fun found feature =>
               match NM_MUNICIP G feature with
               | Some n => if String.eqb n k
                           then Some (geometry G feature) else found
               | None => found
               end) features (get_item G d k)).
  { induction features as [|f fs IH]; intros d k; cbn [fold_left].
    - now destruct (String.eqb k "").
    - rewrite IH. destruct (String.eqb_spec k "") as [->|Hk].
      + destruct (NM_MUNICIP G f) as [n|]; [|reflexivity].
        destruct (String.eqb_spec n "") as [->|Hn]; [reflexivity|].
        rewrite get_set_item.
        destruct (String.eqb_spec n ""); [contradiction|reflexivity].
      + destruct (NM_MUNICIP G f) as [n|]; [|reflexivity].
        destruct (String.eqb_spec n "") as [->|Hn].
        * destruct (String.eqb_spec "" k); [congruence|reflexivity].
        * now rewrite get_set_item. }
  split.
  - intros Hne. unfold load_municipios, last_named. rewrite Gen.
    destruct (String.eqb_spec nome ""); [contradiction|reflexivity].
  - unfold load_municipios. now rewrite Gen.
Qed.

Lemma load_municipios_lookup_twice :
  get_item Z (load_municipios Z
                (Some [{| NM_MUNICIP := Some "Alcântara"; geometry := 1%Z |};
                       {| NM_MUNICIP := None; geometry := 2%Z |};
                       {| NM_MUNICIP := Some "Alcântara"; geometry := 3%Z |}]))
           "Alcântara"
  = Some 3%Z.
Proof.
  destruct (@load_municipios_lookup Z) as (_ & H).
  destruct (H [{| NM_MUNICIP := Some "Alcântara"; geometry := 1%Z |};
               {| NM_MUNICIP := None; geometry := 2%Z |};
               {| NM_MUNICIP := Some "Alcântara"; geometry := 3%Z |}]
              "Alcântara") as (H1 & _).
  rewrite H1; [reflexivity|discriminate].
Defined.

(** The rows and the messages of the statistics loop, year by year: a year
    whose sums were fetched gives seven rows, classes 0 to 6 in order; a
    year whose fetch raised gives one message with the year and the
    reason; a year fetched without sums gives one message. *)
Theorem stats_rows_by_year (getInfo : Z -> outcome AreasDict) (years : list Z) :
  map (fun r => (Ano r, Classe r)) (fst (stats_loop getInfo years))
  = flat_map (fun y =>
                match getInfo y with
                | Returns d =>
                    match get_key d "sum" with
                    | Some _ => map (fun i => (y, i)) (range 0 7)
                    | None => []
                    end
                | Raises _ => []
                end) years /\
  snd (stats_loop getInfo years)
  = flat_map (fun y =>
                match getInfo y with
                | Returns d =>
                    match get_key d "sum" with
                    | Some _ => []
                    | None => [("Formato inesperado de resultados para "
                                ++ str_int y)%string]
                    end
                | Raises e => [("Erro ao processar " ++ str_int y ++ ": "
                                ++ str e)%string]
                end) years.
Proof.
  rewrite NovoFacts.stats_loop_per_year. cbn [fst snd].
  induction years as [|y years [IH1 IH2]]; [split; reflexivity|].
  cbn [flat_map]. rewrite map_app, IH1, IH2.
  unfold year_result, stats_step.
  destruct (getInfo y) as [d|e]; [destruct (get_key d "sum")|];
    split; reflexivity.
Qed.

(** Clipping the image to the geometry before reducing over the same
    geometry changes no class area. *)
Theorem clip_leaves_class_area (g : Geometry) (band : Band Z) (i : Z) :
  class_area_m2 g (clip g band) i == class_area_m2 g band i.
Proof.
  unfold class_area_m2. rewrite !reduce_class_band. unfold clip.
  rewrite Qsum_map. apply Qsum_ext. intros p _.
  destruct (Qeq_bool (g (pos p)) 0) eqn:E; [|reflexivity].
  apply Qeq_bool_eq in E. unfold contrib, on_value. cbn [value pos pixelArea].
  destruct (value p); [rewrite E; ring|reflexivity].
Qed.

Lemma remap_years_names image from to ys r :
  remap_years image from to ys = Returns r -> bandNames r = ys.
Proof.
  intros H. rewrite (NovoFacts.remap_years_returns _ _ _ _ _ H).
  unfold bandNames. rewrite map_map. cbn [fst]. apply map_id.
Qed.

Lemma remap_years_complete image from to ys :
  List.length from = List.length to ->
  (forall y, In y ys -> In y (bandNames image)) ->
  exists r, remap_years image from to ys = Returns r.
Proof.
  intros Hlen Hall. induction ys as [|y ys IH]; [now eexists|].
  cbn [remap_years].
  destruct (GlobeFacts.select_present image y) as (b & Hb);
    [apply Hall; now left|].
  rewrite Hb. cbn [bind]. unfold remap. apply Nat.eqb_eq in Hlen.
  rewrite Hlen. cbn [bind].
  destruct IH as (r & Hr); [intros; apply Hall; now right|].
  rewrite Hr. cbn [bind]. eauto.
Qed.

Lemma remap_years_missing image from to ys y :
  In y ys -> ~ In y (bandNames image) ->
  exists msg, remap_years image from to ys = Raises (EEException msg).
Proof.
  intros Hin Hy. induction ys as [|y0 ys IH]; [contradiction|].
  cbn [remap_years]. unfold select at 1.
  destruct (find (fun yb => (fst yb =? y0)%Z) image) as [yb|] eqn:E;
    cbn [bind]; [|eauto].
  unfold remap. destruct (List.length from =? List.length to)%nat;
    cbn [bind]; [|eauto].
  destruct Hin as [->|Hin].
  - exfalso. apply Hy. apply find_some in E. destruct E as [E1 E2].
    apply Z.eqb_eq in E2. subst y. unfold bandNames. now apply in_map.
  - destruct (IH Hin) as (msg & ->). cbn [bind]. eauto.
Qed.

(** [reclassify_bands] needs all 39 bands: with lists of one length and
    every band from 1985 to 2023 in the image it returns an image whose
    bands are exactly those years, in order; if any one of them is missing
    the whole image fails with the service's error. *)
Theorem reclassify_bands_needs_every_year (image : Image) (from to : list Z) :
  (List.length from = List.length to ->
   (forall y, In y (range 1985 2024) -> In y (bandNames image)) ->
   exists r, reclassify_bands image from to = Returns r /\
             bandNames r = range 1985 2024) /\
  (forall y, In y (range 1985 2024) -> ~ In y (bandNames image) ->
   exists msg, reclassify_bands image from to = Raises (EEException msg)).
Proof.
  split.
  - intros Hlen Hall.
    destruct (remap_years_complete image from to _ Hlen Hall) as (r & Hr).
    exists r. split; [exact Hr|]. now apply remap_years_names in Hr.
  - intros y Hin Hy. now apply (remap_years_missing image from to _ y).
Qed.

Lemma reclassify_bands_needs_every_year_scene :
  (exists r, reclassify_bands (Scene.every_year (Scene.grid 1 1 1)) [1]%Z [1]%Z
             = Returns r /\ bandNames r = range 1985 2024) /\
  (exists msg, reclassify_bands [(2020%Z, Scene.grid 1 1 1)] [1]%Z [1]%Z
               = Raises (EEException msg)).
Proof.
  split.
  - apply (proj1 (reclassify_bands_needs_every_year
                    (Scene.every_year (Scene.grid 1 1 1)) [1]%Z [1]%Z));
      [reflexivity|].
    intros y Hy. unfold Scene.every_year, bandNames. rewrite map_map.
    cbn [fst]. now rewrite map_id.
  - apply (proj2 (reclassify_bands_needs_every_year
                    [(2020%Z, Scene.grid 1 1 1)] [1]%Z [1]%Z) 1985%Z).
    + vm_compute. tauto.
    + cbn. intros [H|[]]. discriminate.
Defined.

Lemma key_eqb_eq (a b : Key) : key_eqb a b = true <-> a = b.
Proof.
  destruct a as [y1 s1], b as [y2 s2]. unfold key_eqb. cbn [fst snd].
  rewrite andb_true_iff, Z.eqb_eq, String.eqb_eq.
  split; [intros [-> ->]; reflexivity|intros H; injection H; auto].
Qed.

Lemma key_eqb_refl (a : Key) : key_eqb a a = true.
Proof. now apply key_eqb_eq. Qed.

Lemma In_insert_sorted k k' l :
  In k' (insert_sorted k l) <-> k' = k \/ In k' l.
Proof.
  induction l as [|h t IH]; cbn [insert_sorted].
  - cbn. intuition.
  - destruct (key_ltb k h); cbn [In]; [intuition|]. rewrite IH. intuition.
Qed.

Lemma NoDup_insert_sorted k l :
  ~ In k l -> NoDup l -> NoDup (insert_sorted k l).
Proof.
  induction l as [|h t IH]; intros Hk Hl; cbn [insert_sorted].
  - constructor; [intros []|constructor].
  - destruct (key_ltb k h); [now constructor|].
    inversion Hl as [|? ? Hh Ht]; subst. constructor.
    + rewrite In_insert_sorted. intros [->|H]; [apply Hk; now left|contradiction].
    + apply IH; [intros H; apply Hk; now right|assumption].
Qed.

Lemma existsb_key k l : existsb (key_eqb k) l = true <-> In k l.
Proof.
  rewrite existsb_exists. split.
  - intros (x & Hx & E). apply key_eqb_eq in E. now subst.
  - intros H. exists k. split; [assumption|apply key_eqb_refl].
Qed.

Lemma In_add_key k k' l : In k' (add_key k l) <-> k' = k \/ In k' l.
Proof.
  unfold add_key. destruct (existsb (key_eqb k) l) eqn:E.
  - apply existsb_key in E. split; [auto|]. intros [->|H]; assumption.
  - apply In_insert_sorted.
Qed.

Lemma NoDup_add_key k l : NoDup l -> NoDup (add_key k l).
Proof.
  intros Hl. unfold add_key. destruct (existsb (key_eqb k) l) eqn:E.
  - exact Hl.
  - apply NoDup_insert_sorted; [|exact Hl].
    intros H. apply existsb_key in H. congruence.
Qed.

Lemma group_keys_fold df l :
  NoDup l ->
  NoDup (fold_left (fun l r => add_key (key_of r) l) df l) /\
  forall k, In k (fold_left (fun l r => add_key (key_of r) l) df l)
            <-> In k l \/ exists r, In r df /\ key_of r = k.
Proof.
  revert l. induction df as [|r df IH]; intros l Hl; cbn [fold_left].
  - split; [exact Hl|]. intros k. split; [auto|].
    intros [H|(r & [] & _)]. exact H.
  - destruct (IH (add_key (key_of r) l) (NoDup_add_key _ _ Hl)) as (N & I).
    split; [exact N|]. intros k. rewrite I, In_add_key. split.
    + intros [[->|H]|(r' & Hr' & E)]; eauto.
      * right. exists r. split; [now left|reflexivity].
      * right. exists r'. split; [now right|exact E].
    + intros [H|(r' & [<-|Hr'] & E)]; eauto.
Qed.

(** Each key of the rows is a group, once. *)
Lemma group_keys_spec df :
  NoDup (group_keys df) /\
  forall k, In k (group_keys df) <-> exists r, In r df /\ key_of r = k.
Proof.
  destruct (group_keys_fold df [] (NoDup_nil _)) as (N & I).
  split; [exact N|]. intros k. unfold group_keys. rewrite I.
  split; [intros [[]|H]; exact H|auto].
Qed.

Lemma Qsum_indicator (k0 : Key) (a : Q) (keys : list Key) :
  NoDup keys -> In k0 keys ->
  Qsum (fun k => if key_eqb k0 k then a else 0) keys == a.
Proof.
  induction keys as [|k keys IH]; intros Hn Hin; [contradiction|].
  inversion Hn as [|? ? Hk Hn']; subst. rewrite Qsum_cons.
  destruct (key_eqb k0 k) eqn:E.
  - apply key_eqb_eq in E. subst k.
    rewrite (Qsum_ext _ (fun _ => 0) keys).
    + rewrite ConservationFacts.Qsum_zero. ring.
    + intros k Hk'. destruct (key_eqb k0 k) eqn:E'; [|reflexivity].
      apply key_eqb_eq in E'. subst. contradiction.
  - destruct Hin as [<-|Hin]; [now rewrite key_eqb_refl in E|].
    rewrite IH by assumption. ring.
Qed.

Lemma Qsum_groups (A : Row -> Q) (keys : list Key) (df : list Row) :
  NoDup keys -> (forall r, In r df -> In (key_of r) keys) ->
  Qsum (fun k => Qsum A (filter (fun r => key_eqb (key_of r) k) df)) keys
  == Qsum A df.
Proof.
  intros Hn. induction df as [|r df IH]; intros Hall.
  - cbn [filter]. apply ConservationFacts.Qsum_zero.
  - rewrite Qsum_cons, <- IH by (intros; apply Hall; now right).
    rewrite <- (Qsum_indicator (key_of r) (A r) keys Hn)
      by (apply Hall; now left).
    rewrite <- ConservationFacts.Qsum_plus. apply Qsum_ext. intros k _.
    cbn [filter]. destruct (key_eqb (key_of r) k).
    + rewrite Qsum_cons. reflexivity.
    + ring.
Qed.

Lemma key_eqb_year (y : Z) (s1 s2 : string) :
  key_eqb (y, s1) (y, s2) = String.eqb s1 s2.
Proof. unfold key_eqb. cbn [fst snd]. now rewrite Z.eqb_refl. Qed.

Lemma key_ltb_year (y : Z) (s1 s2 : string) :
  key_ltb (y, s1) (y, s2) = String.ltb s1 s2.
Proof.
  unfold key_ltb. cbn [fst snd]. now rewrite Z.ltb_irrefl, Z.eqb_refl.
Qed.

Ltac eval_strings :=
  repeat match goal with
         | |- context [String.eqb ?x ?y] =>
             let v := eval vm_compute in (String.eqb x y) in
             progress change (String.eqb x y) with v
         | |- context [String.ltb ?x ?y] =>
             let v := eval vm_compute in (String.ltb x y) in
             progress change (String.ltb x y) with v
         end.

Ltac eval_names :=
  repeat match goal with
         | |- context [class_name ?d ?i] =>
             let v := eval vm_compute in (class_name d i) in
             progress change (class_name d i) with v
         end.

(** The aggregated table keeps the total: it has one row for each pair of
    year and class name met in the statistics, and its areas add up to
    the areas of the statistics.  The two classes named "Não Observado",
    0 and 6, fall into one row: the seven rows of a year become six, in
    the order of the names. *)
Theorem df_agg_keeps_total :
  (forall df : list Row,
      NoDup (map (fun a => (agg_Ano a, agg_Nome a)) (df_agg df)) /\
      Qsum agg_Area (df_agg df) == Qsum Area_km2 df) /\
  (forall (year : Z) (a : Z -> Q),
      df_agg (map (fun i => {| Ano := year; Classe := i;
                               Nome_da_Classe :=
                                 class_name (names CLASS_CONFIG) i;
                               Area_km2 := a i |})
                  (range 0 7))
      = [ {| agg_Ano := year; agg_Nome := "Agropecuária";
             agg_Area := Qsum a [3%Z] |};
          {| agg_Ano := year; agg_Nome := "Corpo D'água";
             agg_Area := Qsum a [5%Z] |};
          {| agg_Ano := year; agg_Nome := "Floresta";
             agg_Area := Qsum a [1%Z] |};
          {| agg_Ano := year; agg_Nome := "Não Observado";
             agg_Area := Qsum a [0%Z; 6%Z] |};
          {| agg_Ano := year; agg_Nome := "Vegetação Herbácea";
             agg_Area := Qsum a [2%Z] |};
          {| agg_Ano := year; agg_Nome := "Área não Vegetada";
             agg_Area := Qsum a [4%Z] |} ]).
Proof.
  split.
  - intros df. destruct (group_keys_spec df) as (N & I). split.
    + unfold df_agg. rewrite map_map. cbn [agg_Ano agg_Nome].
      rewrite (map_ext _ (fun k => k)) by (intros [? ?]; reflexivity).
      now rewrite map_id.
    + unfold df_agg. rewrite Qsum_map. cbn [agg_Area].
      apply Qsum_groups; [exact N|].
      intros r Hr. apply I. eauto.
  - intros year a. unfold df_agg.
    set (rows := map _ (range 0 7)).
    assert (K : group_keys rows
                = [(year, "Agropecuária"); (year, "Corpo D'água");
                   (year, "Floresta"); (year, "Não Observado");
                   (year, "Vegetação Herbácea"); (year, "Área não Vegetada")]).
    { subst rows. unfold group_keys.
      change (range 0 7) with [0; 1; 2; 3; 4; 5; 6]%Z.
      cbn [map fold_left]. unfold key_of. cbn [Ano Nome_da_Classe].
      eval_names. unfold add_key.
      repeat (progress (cbn [existsb insert_sorted orb];
                        rewrite ?key_eqb_year, ?key_ltb_year; eval_strings)).
      reflexivity. }
    rewrite K. subst rows. change (range 0 7) with [0; 1; 2; 3; 4; 5; 6]%Z.
    cbn [map fst snd]. unfold key_of. cbn [filter Ano Nome_da_Classe].
    eval_names. rewrite !key_eqb_year. eval_strings. reflexivity.
Qed.

(** The percentages of the pie.  When the areas of the selected year do
    not add up to zero, every percentage is the finite share of its row
    and the shares add up to 100.  When they add up to zero, the division
    by the total is carried out all the same and no percentage is a
    finite number. *)
Theorem pie_percentages (agg : list AggRow) (selected_year : Z) :
  (~ total_area (year_df agg selected_year) == 0 ->
   pie agg selected_year
   = map (fun a => Rio.Num (agg_Area a
                            / total_area (year_df agg selected_year) * 100))
         (year_df agg selected_year) /\
   Qsum (fun a => agg_Area a / total_area (year_df agg selected_year) * 100)
        (year_df agg selected_year) == 100) /\
  (total_area (year_df agg selected_year) == 0 ->
   forall p, In p (pie agg selected_year) -> ~ Rio.finite p).
Proof.
  set (ydf := year_df agg selected_year). set (total := total_area ydf).
  split.
  - intros Hne. split.
    + unfold pie. fold ydf. fold total. apply map_ext. intros a.
      unfold porcentagem, Rio.fdiv.
      now rewrite (RioFacts.Qeq_bool_false _ Hne).
    + unfold Qdiv. rewrite ConservationFacts.Qsum_scale.
      rewrite ConservationFacts.Qsum_scale.
      fold (total_area ydf). fold total. field. exact Hne.
  - intros Hz p Hp. unfold pie in Hp. fold ydf in Hp. fold total in Hp.
    apply in_map_iff in Hp. destruct Hp as (a & <- & _).
    unfold porcentagem, Rio.fdiv.
    assert (E : Qeq_bool total 0 = true) by now apply Qeq_bool_iff.
    rewrite E. cbn [Rio.sign].
    destruct (agg_Area a ?= 0); cbn; tauto.
Qed.

Lemma pie_percentages_two_rows :
  pie [ {| agg_Ano := 2023; agg_Nome := "Floresta"; agg_Area := 3 |};
        {| agg_Ano := 2023; agg_Nome := "Agropecuária"; agg_Area := 1 |} ]
      2023
  = [Rio.Num (3 / (3 + (1 + 0)) * 100); Rio.Num (1 / (3 + (1 + 0)) * 100)].
Proof.
  destruct (pie_percentages
              [ {| agg_Ano := 2023; agg_Nome := "Floresta"; agg_Area := 3 |};
                {| agg_Ano := 2023; agg_Nome := "Agropecuária";
                   agg_Area := 1 |} ] 2023) as (H & _).
  destruct H as (H1 & _); [discriminate|]. exact H1.
Defined.
End NovoReportFacts.

(** ** mapbiomas_globe.py: the two loops and the table of classes *)

Module GlobeReportFacts.
Import Py EE Globe Quantities AreaFacts.


Lemma existsb_year y l : existsb (Z.eqb y) l = true <-> In y l.
Proof.
  rewrite existsb_exists. split.
  - intros (x & Hx & E). apply Z.eqb_eq in E. now subst.
  - intros H. exists y. split; [assumption|apply Z.eqb_refl].
Qed.






Lemma keys_dict_set {V} (k : Z) (v : V) (d : dict V) :
  keys (dict_set k v d)
  = if existsb (Z.eqb k) (keys d) then keys d else keys d ++ [k].
Proof.
  unfold keys. induction d as [|[k0 v0] d IH]; [reflexivity|].
  cbn [dict_set map fst existsb]. rewrite (Z.eqb_sym k k0).
  destruct (Z.eqb_spec k0 k) as [->|Hne]; cbn [orb map fst]; [reflexivity|].
  rewrite IH. now destruct (existsb (Z.eqb k) (map fst d)).
Qed.

Lemma NoDup_snoc (l : list Z) (k : Z) :
  NoDup l -> ~ In k l -> NoDup (l ++ [k]).
Proof.
  induction l as [|x l IH]; intros Hl Hk; cbn [app].
  - constructor; [intros []|constructor].
  - inversion Hl as [|? ? Hx Hl']; subst. constructor.
    + rewrite in_app_iff. intros [H|[<-|[]]]; [contradiction|].
      apply Hk. now left.
    + apply IH; [assumption|]. intros H. apply Hk. now right.
Qed.

Lemma dict_set_keys {V} (k : Z) (v : V) (d : dict V) :
  (NoDup (keys d) -> NoDup (keys (dict_set k v d))) /\
  forall k', In k' (keys (dict_set k v d)) <-> In k' (keys d) \/ In k' [k].
Proof.
  rewrite keys_dict_set. destruct (existsb (Z.eqb k) (keys d)) eqn:E.
  - apply existsb_year in E. split; [auto|]. intros k'. split; [auto|].
    intros [H|[<-|[]]]; assumption.
  - split.
    + intros Hn. apply NoDup_snoc; [exact Hn|].
      intros H. apply existsb_year in H. congruence.
    + intros k'. apply in_app_iff.
Qed.

Lemma fold_keys {X} (step : dict Z -> X -> dict Z) (ks : X -> list Z) :
  (forall d x, NoDup (keys d) -> NoDup (keys (step d x))) ->
  (forall d x k, In k (keys (step d x)) <-> In k (keys d) \/ In k (ks x)) ->
  forall xs d,
    NoDup (keys d) ->
    NoDup (keys (fold_left step xs d)) /\
    forall k, In k (keys (fold_left step xs d))
              <-> In k (keys d) \/ exists x, In x xs /\ In k (ks x).
Proof.
  intros Hn Hi. induction xs as [|x xs IH]; intros d Hd; cbn [fold_left].
  - split; [exact Hd|]. intros k. split; [auto|].
    intros [H|(x & [] & _)]. exact H.
  - destruct (IH (step d x) (Hn d x Hd)) as (N & I). split; [exact N|].
    intros k. rewrite I, Hi. split.
    + intros [[H|H]|(x' & Hx' & Hk)]; eauto.
      * right. exists x. split; [now left|exact H].
      * right. exists x'. split; [now right|exact Hk].
    + intros [H|(x' & [<-|Hx'] & Hk)]; eauto.
Qed.

Lemma comprehension_keys cls codes :
  NoDup (keys (comprehension cls codes)) /\
  forall k, In k (keys (comprehension cls codes)) <-> In k codes.
Proof.
  destruct (fold_keys (fun d code => dict_set code cls d) (fun code => [code])
              (fun d x => proj1 (dict_set_keys x cls d))
              (fun d x => proj2 (dict_set_keys x cls d))
              codes [] (NoDup_nil _)) as (N & I).
  split; [exact N|]. intros k. unfold comprehension. rewrite I. split.
  - intros [[]|(x & Hx & [<-|[]])]. exact Hx.
  - intros H. right. exists k. split; [exact H|now left].
Qed.

Lemma dict_merge_keys (d1 d2 : dict Z) :
  (NoDup (keys d1) -> NoDup (keys (dict_merge d1 d2))) /\
  forall k, In k (keys (dict_merge d1 d2)) <-> In k (keys d1) \/ In k (keys d2).
Proof.
  pose proof (fold_keys (fun d kv => dict_set (fst kv) (snd kv) d)
                (fun kv => [fst kv])
                (fun d x => proj1 (dict_set_keys (fst x) (snd x) d))
                (fun d x => proj2 (dict_set_keys (fst x) (snd x) d))
                d2 d1) as F.
  split.
  - intros Hn. exact (proj1 (F Hn)).
  - intros k. unfold dict_merge.
    assert (G : forall (xs d : dict Z),
      In k (keys (fold_left (fun d kv => dict_set (fst kv) (snd kv) d) xs d))
      <-> In k (keys d) \/ In k (keys xs)).
    { induction xs as [|x xs IH]; intros d; cbn [fold_left].
      - cbn. tauto.
      - rewrite IH, (proj2 (dict_set_keys (fst x) (snd x) d)).
        change (keys (x :: xs)) with (fst x :: keys xs). cbn [In]. tauto. }
    apply G.
Qed.

(** The table of classes is a dict whatever the groups say: each listed
    raw code is a key exactly once, nothing else is a key, and the two
    lists handed to the remap always have one length, so the remap of a
    band never fails. *)
Theorem class_mapping_keys (groups : list (Z * list Z)) :
  NoDup (keys (class_mapping groups)) /\
  (forall code, In code (keys (class_mapping groups))
                <-> exists g, In g groups /\ In code (snd g)) /\
  (forall band, exists r,
      remap (keys (class_mapping groups)) (values (class_mapping groups)) band
      = Returns r).
Proof.
  destruct (fold_keys
              (fun d g => dict_merge d (comprehension (fst g) (snd g)))
              (fun g => snd g)
              (fun d g => proj1 (dict_merge_keys d _))
              (fun d g k =>
                 iff_trans (proj2 (dict_merge_keys d _) k)
                           (or_iff_compat_l _
                              (proj2 (comprehension_keys (fst g) (snd g)) k)))
              groups [] (NoDup_nil _)) as (N & I).
  split; [exact N|]. split.
  - intros code. unfold class_mapping. rewrite I. split.
    + intros [[]|H]. exact H.
    + auto.
  - intros band. unfold remap, keys, values. rewrite !length_map.
    rewrite Nat.eqb_refl. eauto.
Qed.




(** The two dashboards class the raw codes alike, but for two of them:
    code 0 has no class in mapbiomas_globe.py and class 0 in novo.py, and
    code 21 is of class 3 in the former and of class 4 in the latter. *)
Theorem schemes_differ_on_0_and_21 :
  (forall c, c <> 0%Z -> c <> 21%Z ->
     remap_value (keys CLASS_MAPPING) (values CLASS_MAPPING) c
     = remap_value (Novo.codes Novo.CLASS_CONFIG)
                   (Novo.new_classes Novo.CLASS_CONFIG) c) /\
  remap_value (keys CLASS_MAPPING) (values CLASS_MAPPING) 0 = None /\
  remap_value (Novo.codes Novo.CLASS_CONFIG)
              (Novo.new_classes Novo.CLASS_CONFIG) 0 = Some 0%Z /\
  remap_value (keys CLASS_MAPPING) (values CLASS_MAPPING) 21 = Some 3%Z /\
  remap_value (Novo.codes Novo.CLASS_CONFIG)
              (Novo.new_classes Novo.CLASS_CONFIG) 21 = Some 4%Z.
Proof.
  split; [|repeat split; reflexivity].
  intros c H0 H21.
  destruct (in_dec Z.eq_dec c (Novo.codes Novo.CLASS_CONFIG)) as [Hin|Hout].
  - cbn in Hin.
    repeat (destruct Hin as [<-|Hin];
            [first [congruence | vm_compute; reflexivity]|]).
    contradiction.
  - rewrite (EEFacts.remap_value_unlisted _ _ c Hout).
    apply EEFacts.remap_value_unlisted. intros Hk. apply Hout.
    vm_compute in Hk.
    repeat (destruct Hk as [<-|Hk];
            [cbn; repeat (first [left; reflexivity | right])|]).
    contradiction.
Qed.

Lemma schemes_differ_on_0_and_21_code_14 :
  remap_value (keys CLASS_MAPPING) (values CLASS_MAPPING) 14
  = remap_value (Novo.codes Novo.CLASS_CONFIG)
                (Novo.new_classes Novo.CLASS_CONFIG) 14.
Proof.
  apply (proj1 schemes_differ_on_0_and_21); discriminate.
Defined.
End GlobeReportFacts.
